(** * Gestor de precios: the handlers of [main.py] as Rocq functions

    The FastAPI handlers of [main.py] are embedded as functions in a small
    state-and-error monad over a [World]: the two tables of the database
    ([product] and [pricehistory]) and the wall clock that
    [datetime.utcnow] reads.  Prices, costs and percentages are Python
    floats, that is IEEE 754 binary64 numbers: they are Rocq's primitive
    floats, and the builtin [round] is written out on their exact values.

    Scope of the embedding.  A request body is taken after validation, and a
    field that is supplied carries a value: a JSON [null] for a column that
    is declared without [Optional] is refused by the store when the session
    commits, which is the store's failure and not the handlers'.  Every
    handler raises only before its first write and commits on every path
    that writes, so a write is applied where the handler calls
    [session.add] or [session.delete]. *)

From Stdlib Require Import ZArith List String Bool Lia Permutation Sorted.
From Stdlib Require Import Floats.
Import ListNotations.

Local Open Scope string_scope.
Local Open Scope list_scope.
Local Open Scope Z_scope.

(** ** Python floats *)

(** [a == b] and [a != b] on floats: IEEE comparison, so [0.0 == -0.0] and a
    NaN differs from everything, itself included. *)
Definition float_eq (a b : float) : bool := PrimFloat.eqb a b.
Definition float_ne (a b : float) : bool := negb (PrimFloat.eqb a b).

(** The integer nearest to [num / den] for [den > 0], a tie going to the even
    one. *)
Definition round_half_even (num den : Z) : Z :=
  let q := num / den in
  match 2 * (num mod den) ?= den with
  | Lt => q
  | Gt => q + 1
  | Eq => if Z.even q then q else q + 1
  end.

(** The builtin [round(x, ndigits)] on a float, for [ndigits >= 0].  A NaN, an
    infinity and a zero round to themselves.  Otherwise [x] is [m * 2^e]
    exactly: [n] is that value times [10^ndigits] rounded to an integer, half
    to even (the correctly rounded decimal string), and the result is the
    binary64 number nearest to [n / 10^ndigits] (the string read back), with
    the sign of [x]. *)
Definition round (x : float) (ndigits : N) : float :=
  match Prim2SF x with
  | S754_finite s m e =>
      let scale := 10 ^ Z.of_N ndigits in
      let n :=
        if 0 <=? e then Zpos m * scale * 2 ^ e
        else round_half_even (Zpos m * scale) (2 ^ (- e)) in
      match n with
      | Zpos p =>
          SF2Prim (SFdiv prec emax (S754_finite s p 0)
                                   (S754_finite false (Z.to_pos scale) 0))
      | _ => SF2Prim (S754_zero s)
      end
  | _ => x
  end.

(** ** Models *)

(** [datetime]: microseconds on the UTC time line. *)
Definition datetime := Z.

(** [class Product(ProductBase, table=True)]: a row of the table [product]. *)
Module Product.
Record t := mk {
  id : Z;
  name : string;
  category : string;
  cost : float;
  price : float;
  created_at : datetime;
  updated_at : datetime
}.

Definition set_price (v : float) (p : t) : t :=
  mk (id p) (name p) (category p) (cost p) v (created_at p) (updated_at p).

Definition set_updated_at (d : datetime) (p : t) : t :=
  mk (id p) (name p) (category p) (cost p) (price p) (created_at p) d.
End Product.

(** [class ProductCreate(ProductBase)]. *)
Module ProductCreate.
Record t := mk {
  name : string;
  category : string;
  cost : float;
  price : float
}.
End ProductCreate.

(** [class ProductUpdate]: [None] is a field the request left unset, which
    [data.dict(exclude_unset=True)] drops. *)
Module ProductUpdate.
Record t := mk {
  name : option string;
  category : option string;
  cost : option float;
  price : option float
}.
End ProductUpdate.

(** [class ProductRead(ProductBase)]. *)
Module ProductRead.
Record t := mk {
  id : Z;
  name : string;
  category : string;
  cost : float;
  price : float;
  created_at : datetime;
  updated_at : datetime;
  margin : float
}.
End ProductRead.

(** [class PriceHistory(SQLModel, table=True)]: a row of [pricehistory]. *)
Module PriceHistory.
Record t := mk {
  id : Z;
  product_id : Z;
  old_price : float;
  new_price : float;
  reason : option string;
  created_at : datetime
}.
End PriceHistory.

(** [class BulkIncreaseRequest]. *)
Module BulkIncreaseRequest.
Record t := mk {
  percentage : float;
  category : option string;
  reason : option string
}.

(** The default of the field [reason]. *)
Definition default_reason : string := "Ajuste masivo".

(** Validation of a request body.  [reason_field] is [None] when the body
    has no key [reason]: the field then takes its default.  A body that
    has the key gives its value, a string or [null]. *)
Definition parse (percentage : float) (category : option string)
    (reason_field : option (option string)) : t :=
  mk percentage category
     (match reason_field with
      | None => Some default_reason
      | Some r => r
      end).
End BulkIncreaseRequest.

(** What a handler without a response model returns: a dict of JSON values. *)
Inductive json :=
| JNull
| JInt (n : Z)
| JFloat (x : float)
| JStr (s : string).

Definition dict := list (string * json).


Definition json_of_optional_str (o : option string) : json :=
  match o with
  | None => JNull
  | Some s => JStr s
  end.

(** ** The world: the clock and the database *)

Record World := mkWorld {
  clock : nat -> datetime;
  (** the successive values [datetime.utcnow()] returns *)
  reads : nat;
  (** how many of them were read *)
  products : list Product.t;
  (** the table [product], in rowid order *)
  price_history : list PriceHistory.t
  (** the table [pricehistory], in rowid order *)
}.

(** [HTTPException(status_code, detail)]. *)
Inductive response (A : Type) :=
| Ok (a : A)
| HTTPException (status_code : Z) (detail : string).
Arguments Ok {A} a.
Arguments HTTPException {A} status_code detail.

Definition M (A : Type) : Type := World -> response A * World.

Definition ret {A} (a : A) : M A := fun w => (Ok a, w).

Definition bind {A B} (m : M A) (k : A -> M B) : M B :=
  fun w =>
    match m w with
    | (Ok a, w') => k a w'
    | (HTTPException c d, w') => (HTTPException c d, w')
    end.

Definition raise {A} (status_code : Z) (detail : string) : M A :=
  fun w => (HTTPException status_code detail, w).

Notation "x <- m ;; k" := (bind m (fun x => k))
  (at level 100, m at next level, right associativity).
Notation "m ;;; k" := (bind m (fun _ => k))
  (at level 100, right associativity).

(** [datetime.utcnow()]. *)
Definition utcnow : M datetime :=
  fun w => (Ok (clock w (reads w)),
            mkWorld (clock w) (S (reads w)) (products w) (price_history w)).

(** The rowid the store gives a new row: one more than the largest in the
    table, starting from 1. *)
Definition next_rowid (ids : list Z) : Z := 1 + fold_right Z.max 0 ids.

Definition has_id (product_id : Z) (p : Product.t) : bool :=
  Product.id p =? product_id.

(** The row of the table [product] under a primary key, if there is one. *)
Definition product_row (product_id : Z) (w : World) : option Product.t :=
  find (has_id product_id) (products w).

(** [session.get(Product, product_id)]. *)
Definition session_get (product_id : Z) : M (option Product.t) :=
  fun w => (Ok (product_row product_id w), w).

(** [session.add(product)] for a new object: the row is inserted under the
    rowid the store assigns. *)
Definition session_add_new (row : Z -> Product.t) : M Product.t :=
  fun w =>
    let p := row (next_rowid (map Product.id (products w))) in
    (Ok p, mkWorld (clock w) (reads w) (products w ++ [p]) (price_history w)).

(** [session.add(product)] for an object the session loaded: the row of its
    primary key is written back. *)
Definition session_add (p : Product.t) : M unit :=
  fun w =>
    (Ok tt,
     mkWorld (clock w) (reads w)
       (map (fun q => if has_id (Product.id p) q then p else q) (products w))
       (price_history w)).

(** [session.delete(product)]. *)
Definition session_delete (p : Product.t) : M unit :=
  fun w =>
    (Ok tt,
     mkWorld (clock w) (reads w)
       (filter (fun q => negb (has_id (Product.id p) q)) (products w))
       (price_history w)).

(** [history = PriceHistory(...); session.add(history)]: the constructor
    reads the clock for [created_at], and the store assigns the rowid. *)
Definition session_add_history (product_id : Z) (old_price new_price : float)
    (reason : option string) : M unit :=
  created_at <- utcnow ;;
  fun w =>
    let h := PriceHistory.mk (next_rowid (map PriceHistory.id (price_history w)))
               product_id old_price new_price reason created_at in
    (Ok tt, mkWorld (clock w) (reads w) (products w) (price_history w ++ [h])).

(** ** Helpers *)

Definition compute_margin (cost price : float) : float :=
  if float_eq cost 0 then 0%float
  else round (((price - cost) / cost) * 100)%float 2.

Definition product_to_read (product : Product.t) : ProductRead.t :=
  ProductRead.mk
    (Product.id product)
    (Product.name product)
    (Product.category product)
    (Product.cost product)
    (Product.price product)
    (Product.created_at product)
    (Product.updated_at product)
    (compute_margin (Product.cost product) (Product.price product)).

(** ** Product endpoints *)

Definition not_found {A} : M A := raise 404 "Producto no encontrado".

(** [Product.from_orm(data)] fills [created_at] and then [updated_at] from
    their default factories, one call of [datetime.utcnow] each. *)
Definition create_product (data : ProductCreate.t) : M ProductRead.t :=
  created_at <- utcnow ;;
  updated_at <- utcnow ;;
  product <- session_add_new (fun id =>
    Product.mk id
      (ProductCreate.name data)
      (ProductCreate.category data)
      (ProductCreate.cost data)
      (ProductCreate.price data)
      created_at updated_at) ;;
  ret (product_to_read product).

Definition list_products : M (list ProductRead.t) :=
  fun w => (Ok (map product_to_read (products w)), w).

Definition get_product (product_id : Z) : M ProductRead.t :=
  product <- session_get product_id ;;
  match product with
  | None => not_found
  | Some product => ret (product_to_read product)
  end.

(** The value a field has after [setattr] ran over the supplied fields. *)
Definition supplied {A} (field : option A) (current : A) : A :=
  match field with
  | Some value => value
  | None => current
  end.

(** [for key, value in update_data.items(): setattr(product, key, value)]. *)
Definition setattrs (data : ProductUpdate.t) (product : Product.t) : Product.t :=
  Product.mk
    (Product.id product)
    (supplied (ProductUpdate.name data) (Product.name product))
    (supplied (ProductUpdate.category data) (Product.category product))
    (supplied (ProductUpdate.cost data) (Product.cost product))
    (supplied (ProductUpdate.price data) (Product.price product))
    (Product.created_at product)
    (Product.updated_at product).

(** ["price" in update_data and update_data["price"] != old_price]. *)
Definition price_changed (data : ProductUpdate.t) (old_price : float) : bool :=
  match ProductUpdate.price data with
  | Some value => float_ne value old_price
  | None => false
  end.

Definition individual_update : string := "Actualización individual".

Definition update_product (product_id : Z) (data : ProductUpdate.t)
    : M ProductRead.t :=
  product <- session_get product_id ;;
  match product with
  | None => not_found
  | Some product =>
      let old_price := Product.price product in
      let product := setattrs data product in
      now <- utcnow ;;
      let product := Product.set_updated_at now product in
      session_add product ;;;
      (if price_changed data old_price
       then session_add_history (Product.id product) old_price
              (Product.price product) (Some individual_update)
       else ret tt) ;;;
      ret (product_to_read product)
  end.

Definition delete_product (product_id : Z) : M dict :=
  product <- session_get product_id ;;
  match product with
  | None => not_found
  | Some product =>
      session_delete product ;;;
      ret [("detail", JStr "Producto eliminado")]
  end.

(** ** Bulk increase *)

(** [select(Product)] with its [where] clauses, as the test a row passes. *)
Definition query := Product.t -> bool.

Definition select_Product : query := fun _ => true.

Definition where_category (q : query) (category : string) : query :=
  fun p => q p && String.eqb (Product.category p) category.

(** [session.exec(query).all()]. *)
Definition session_exec_all (q : query) : M (list Product.t) :=
  fun w => (Ok (filter q (products w)), w).

(** [query = select(Product)], and [if payload.category:] the [where]: the
    test is the truth value of an [Optional[str]], false for [None] and for
    the empty string. *)
Definition bulk_query (payload : BulkIncreaseRequest.t) : query :=
  match BulkIncreaseRequest.category payload with
  | None => select_Product
  | Some category =>
      if String.eqb category "" then select_Product
      else where_category select_Product category
  end.

(** [factor = 1 + payload.percentage / 100.0]. *)
Definition bulk_factor (payload : BulkIncreaseRequest.t) : float :=
  (1 + BulkIncreaseRequest.percentage payload / 100)%float.

(** The body of [for product in products], with [updated_count] carried
    along. *)
Fixpoint bulk_loop (payload : BulkIncreaseRequest.t) (factor : float)
    (selected : list Product.t) (updated_count : Z) : M Z :=
  match selected with
  | [] => ret updated_count
  | product :: rest =>
      let old_price := Product.price product in
      let new_price := round (old_price * factor)%float 2 in
      let product := Product.set_price new_price product in
      now <- utcnow ;;
      let product := Product.set_updated_at now product in
      session_add product ;;;
      session_add_history (Product.id product) old_price new_price
        (BulkIncreaseRequest.reason payload) ;;;
      bulk_loop payload factor rest (updated_count + 1)
  end.

Definition bulk_increase (payload : BulkIncreaseRequest.t) : M dict :=
  selected <- session_exec_all (bulk_query payload) ;;
  match selected with
  | [] => ret [("updated", JInt 0)]
  | _ :: _ =>
      let factor := bulk_factor payload in
      updated_count <- bulk_loop payload factor selected 0 ;;
      ret [("updated", JInt updated_count);
           ("percentage", JFloat (BulkIncreaseRequest.percentage payload));
           ("category",
            json_of_optional_str (BulkIncreaseRequest.category payload))]
  end.

(** ** History *)

Definition of_product (product_id : Z) (h : PriceHistory.t) : bool :=
  PriceHistory.product_id h =? product_id.

(** [order_by(PriceHistory.created_at.desc())]: the rows are inserted one by
    one in front of the first row that is older. *)
Fixpoint insert_desc (h : PriceHistory.t) (l : list PriceHistory.t)
    : list PriceHistory.t :=
  match l with
  | [] => [h]
  | x :: l' =>
      if PriceHistory.created_at x <? PriceHistory.created_at h
      then h :: l
      else x :: insert_desc h l'
  end.

Definition order_by_created_at_desc (l : list PriceHistory.t)
    : list PriceHistory.t :=
  fold_right insert_desc [] l.

Definition get_history (product_id : Z) : M (list PriceHistory.t) :=
  product <- session_get product_id ;;
  match product with
  | None => not_found
  | Some _ =>
      fun w =>
        (Ok (order_by_created_at_desc
               (filter (of_product product_id) (price_history w))), w)
  end.

(** ** Reachable worlds *)

(** A world before any request: both tables empty, no reading taken. *)
Definition initial (clk : nat -> datetime) : World := mkWorld clk 0 [] [].

(** One request served. *)
Inductive step : World -> World -> Prop :=
| step_create data w : step w (snd (create_product data w))
| step_list w : step w (snd (list_products w))
| step_get product_id w : step w (snd (get_product product_id w))
| step_update product_id data w :
    step w (snd (update_product product_id data w))
| step_delete product_id w : step w (snd (delete_product product_id w))
| step_bulk payload w : step w (snd (bulk_increase payload w))
| step_history product_id w : step w (snd (get_history product_id w)).

Inductive reachable (clk : nat -> datetime) : World -> Prop :=
| reachable_initial : reachable clk (initial clk)
| reachable_step w w' : reachable clk w -> step w w' -> reachable clk w'.

(** The clock never runs backwards. *)
Definition monotone (clk : nat -> datetime) : Prop :=
  forall i j, (i <= j)%nat -> clk i <= clk j.

(** ** The rows the handlers write *)

(** The row [update_product] writes back for [p]: the supplied fields set,
    [updated_at] the reading the call takes. *)
Definition updated_row (data : ProductUpdate.t) (w : World) (p : Product.t)
    : Product.t :=
  Product.set_updated_at (clock w (reads w)) (setattrs data p).

(** The history row [update_product] adds when the price changed. *)
Definition update_entry (w : World) (p : Product.t) (new_price : float)
    : PriceHistory.t :=
  PriceHistory.mk (next_rowid (map PriceHistory.id (price_history w)))
    (Product.id p) (Product.price p) new_price (Some individual_update)
    (clock w (S (reads w))).



(** The rows [bulk_increase] selects. *)
Definition selected_products (payload : BulkIncreaseRequest.t) (w : World)
    : list Product.t :=
  filter (bulk_query payload) (products w).

(** The price [bulk_increase] gives a selected product. *)
Definition bulk_price (factor : float) (p : Product.t) : float :=
  round (Product.price p * factor)%float 2.

(** The row [bulk_increase] writes back for a selected product. *)
Definition bulk_row (factor : float) (now : datetime) (p : Product.t)
    : Product.t :=
  Product.set_updated_at now (Product.set_price (bulk_price factor p) p).

(** A row [q] of the table after the loop of [bulk_increase] ran over
    [selected], the first reading of the loop being the [r]-th of [clk]. *)
Fixpoint after_bulk_loop (factor : float) (clk : nat -> datetime) (r : nat)
    (selected : list Product.t) (q : Product.t) : Product.t :=
  match selected with
  | [] => q
  | p :: rest =>
      after_bulk_loop factor clk (S (S r)) rest
        (if has_id (Product.id p) q then bulk_row factor (clk r) p else q)
  end.

(** [h] is the history row of the bulk change of [p]. *)
Definition bulk_entry_of (payload : BulkIncreaseRequest.t) (factor : float)
    (p : Product.t) (h : PriceHistory.t) : Prop :=
  PriceHistory.product_id h = Product.id p /\
  PriceHistory.old_price h = Product.price p /\
  PriceHistory.new_price h = bulk_price factor p /\
  PriceHistory.reason h = BulkIncreaseRequest.reason payload.

(** The timestamps of a world are in order: the primary keys are distinct,
    and no product was updated before it was created or after a reading the
    clock has still to give. *)
Definition timestamps_ok (w : World) : Prop :=
  NoDup (map Product.id (products w)) /\
  forall p,
    In p (products w) ->
    Product.created_at p <= Product.updated_at p /\
    forall k, (reads w <= k)%nat -> Product.updated_at p <= clock w k.

(** How a request may change the table of products: a row of [w'] is a row
    of [w], or a row of [w] stamped anew, or a new row under a new key. *)
Definition evolves (w w' : World) : Prop :=
  clock w' = clock w /\
  (reads w <= reads w')%nat /\
  (NoDup (map Product.id (products w)) ->
   NoDup (map Product.id (products w'))) /\
  forall p',
    In p' (products w') ->
    In p' (products w) \/
    (exists p k,
       In p (products w) /\ Product.id p' = Product.id p /\
       Product.created_at p' = Product.created_at p /\
       (reads w <= k < reads w')%nat /\
       Product.updated_at p' = clock w k) \/
    (~ In (Product.id p') (map Product.id (products w)) /\
     exists j k,
       (reads w <= j <= k)%nat /\ (k < reads w')%nat /\
       Product.created_at p' = clock w j /\
       Product.updated_at p' = clock w k).

(** The clock advances at every reading. *)
Definition strictly_increasing (clk : nat -> datetime) : Prop :=
  forall i j, (i < j)%nat -> clk i < clk j.

(** [a] was written before [b], by the time they carry. *)
Definition written_before (a b : PriceHistory.t) : Prop :=
  PriceHistory.created_at a < PriceHistory.created_at b.

(** The history is in the order of its times, all of them before the
    readings the clock has still to give. *)
Definition history_in_order (w : World) : Prop :=
  StronglySorted written_before (price_history w) /\
  forall h k,
    In h (price_history w) -> (reads w <= k)%nat ->
    PriceHistory.created_at h < clock w k.

(** ** A sample world *)

(** A clock that advances by one microsecond at each reading. *)
Definition ticking : nat -> datetime := Z.of_nat.

Definition mate : Product.t := Product.mk 1 "mate" "bazar" 50 100 0 1.
Definition yerba : Product.t := Product.mk 2 "yerba" "almacen" 100 200 2 3.

(** Two products created one after the other, no price changed yet. *)
Definition sample_world : World := mkWorld ticking 4 [mate; yerba] [].

(** * Properties *)

(** ** Lists, rowids and lookups *)



Lemma max_rowid_bound (ids : list Z) (x : Z) :
  In x ids -> x <= fold_right Z.max 0 ids.
Proof.
  induction ids as [| y ids IH]; simpl; intros H.
  - contradiction.
  - destruct H as [-> | H]; [lia | specialize (IH H); lia].
Qed.

Lemma next_rowid_fresh (ids : list Z) : ~ In (next_rowid ids) ids.
Proof.
  intros H. apply max_rowid_bound in H. unfold next_rowid in H. lia.
Qed.

Lemma has_id_true product_id p :
  has_id product_id p = true <-> Product.id p = product_id.
Proof.
  unfold has_id. apply Z.eqb_eq.
Qed.

Lemma product_row_id product_id w p :
  product_row product_id w = Some p -> Product.id p = product_id.
Proof.
  unfold product_row. intros H. apply find_some in H.
  apply has_id_true, H.
Qed.

Lemma product_row_In product_id w p :
  product_row product_id w = Some p -> In p (products w).
Proof.
  unfold product_row. intros H. apply find_some in H. apply H.
Qed.

(** A rewrite of rows that keeps every primary key commutes with a lookup. *)
Lemma find_map_same_id (f : Product.t -> Product.t) product_id l :
  (forall q, Product.id (f q) = Product.id q) ->
  find (has_id product_id) (map f l) = option_map f (find (has_id product_id) l).
Proof.
  intros Hf. induction l as [| q l IH]; simpl.
  - reflexivity.
  - unfold has_id at 1 3. rewrite Hf.
    destruct (Product.id q =? product_id); [reflexivity | exact IH].
Qed.

(** Under distinct primary keys a row is the one its key looks up. *)
Lemma find_unique product_id l p :
  NoDup (map Product.id l) -> In p l -> Product.id p = product_id ->
  find (has_id product_id) l = Some p.
Proof.
  induction l as [| q l IH]; simpl; intros Hnd Hin Hid.
  - contradiction.
  - inversion Hnd as [| ? ? Hnotin Hnd']; subst.
    destruct Hin as [-> | Hin].
    + unfold has_id. rewrite Z.eqb_refl. reflexivity.
    + destruct (has_id (Product.id p) q) eqn:E.
      * apply has_id_true in E. exfalso. apply Hnotin.
        rewrite E. apply in_map, Hin.
      * apply IH; auto.
Qed.

(** ** What [update_product] does to a product that exists *)

Lemma update_product_found product_id data w p :
  product_row product_id w = Some p ->
  update_product product_id data w =
    (Ok (product_to_read (updated_row data w p)),
     mkWorld (clock w)
       (if price_changed data (Product.price p)
        then S (S (reads w)) else S (reads w))
       (map (fun q => if has_id (Product.id p) q
                      then updated_row data w p else q) (products w))
       (price_history w ++
          if price_changed data (Product.price p)
          then [update_entry w p (Product.price (updated_row data w p))]
          else [])).
Proof.
  intros H. unfold update_product, bind, session_get. rewrite H. simpl.
  destruct (price_changed data (Product.price p)); simpl;
    rewrite ?app_nil_r; reflexivity.
Qed.

Lemma update_product_missing product_id data w :
  product_row product_id w = None ->
  update_product product_id data w =
    (HTTPException 404 "Producto no encontrado", w).
Proof.
  intros H. unfold update_product, bind, session_get. rewrite H. reflexivity.
Qed.

(** ** The margin *)


(** ** Single updates *)





(** ** The history of a product *)







(** ** Deleting a product *)

Lemma find_filter_other product_id l :
  find (has_id product_id)
       (filter (fun q => negb (has_id product_id q)) l) = None.
Proof.
  induction l as [| q l IH]; simpl.
  - reflexivity.
  - destruct (has_id product_id q) eqn:E; simpl.
    + exact IH.
    + rewrite E. exact IH.
Qed.


(** ** The loop of [bulk_increase] *)

Lemma bulk_loop_spec payload factor selected :
  forall w n,
  exists new,
    bulk_loop payload factor selected n w =
      (Ok (n + Z.of_nat (List.length selected)),
       mkWorld (clock w) (reads w + 2 * List.length selected)
         (map (after_bulk_loop factor (clock w) (reads w) selected)
              (products w))
         (price_history w ++ new)) /\
    Forall2 (bulk_entry_of payload factor) selected new.
Proof.
  induction selected as [| p rest IH]; intros w n.
  - exists []. split; [| constructor].
    simpl. unfold ret. rewrite map_id, app_nil_r, Nat.add_0_r, Z.add_0_r.
    destruct w; reflexivity.
  - simpl bulk_loop. unfold bind at 1. simpl.
    unfold bind at 1. simpl. unfold bind at 1. simpl.
    match goal with
    | |- context [bulk_loop payload factor rest (n + 1) ?w1] =>
        destruct (IH w1 (n + 1)) as (new & Heq & Hall); rewrite Heq
    end.
    simpl. eexists (_ :: new). split.
    + f_equal; [f_equal; lia |].
      rewrite map_map, <- app_assoc. simpl.
      f_equal. lia.
    + constructor; [| exact Hall]. repeat split.
Qed.

Lemma after_bulk_loop_id factor clk selected :
  forall r q,
  Product.id (after_bulk_loop factor clk r selected q) = Product.id q.
Proof.
  induction selected as [| p rest IH]; intros r q; simpl.
  - reflexivity.
  - rewrite IH. destruct (has_id (Product.id p) q) eqn:E; [| reflexivity].
    apply has_id_true in E. simpl. congruence.
Qed.

Lemma after_bulk_loop_other factor clk selected :
  forall r q,
  (forall p, In p selected -> Product.id p <> Product.id q) ->
  after_bulk_loop factor clk r selected q = q.
Proof.
  induction selected as [| p rest IH]; intros r q Hother; simpl.
  - reflexivity.
  - destruct (has_id (Product.id p) q) eqn:E.
    + apply has_id_true in E. exfalso.
      apply (Hother p); [left; reflexivity | congruence].
    + apply IH. intros p' Hp'. apply Hother. right. exact Hp'.
Qed.

(** Every row after the loop is the row before it or the bulk change of the
    selected product of its key, stamped with a reading of the loop. *)
Lemma after_bulk_loop_cases factor clk selected :
  forall r q,
  after_bulk_loop factor clk r selected q = q \/
  exists p k,
    In p selected /\ Product.id p = Product.id q /\
    (r <= k < r + 2 * List.length selected)%nat /\
    after_bulk_loop factor clk r selected q = bulk_row factor (clk k) p.
Proof.
  induction selected as [| p rest IH]; intros r q; simpl.
  - left. reflexivity.
  - destruct (IH (S (S r))
               (if has_id (Product.id p) q
                then bulk_row factor (clk r) p else q))
      as [Hsame | (p' & k & Hin & Hid & Hk & Heq)].
    + rewrite Hsame. destruct (has_id (Product.id p) q) eqn:E.
      * right. exists p, r. apply has_id_true in E.
        repeat split; auto; lia.
      * left. reflexivity.
    + right. exists p', k. repeat split; auto; try lia.
      rewrite Hid. destruct (has_id (Product.id p) q) eqn:E; [| reflexivity].
      apply has_id_true in E. simpl. congruence.
Qed.


Lemma NoDup_map_filter {A B} (f : A -> B) (test : A -> bool) l :
  NoDup (map f l) -> NoDup (map f (filter test l)).
Proof.
  induction l as [| x l IH]; simpl; intros Hnd.
  - constructor.
  - inversion Hnd as [| ? ? Hnotin Hnd']; subst.
    destruct (test x); simpl; [| apply IH, Hnd'].
    constructor; [| apply IH, Hnd'].
    intros Hin. apply Hnotin. apply in_map_iff in Hin.
    destruct Hin as (y & Hy & Hin). apply filter_In in Hin.
    rewrite <- Hy. apply in_map, Hin.
Qed.

Lemma bulk_entries_none payload factor selected new product_id :
  Forall2 (bulk_entry_of payload factor) selected new ->
  ~ In product_id (map Product.id selected) ->
  filter (of_product product_id) new = [].
Proof.
  induction 1 as [| p h selected new Hph _ IH]; simpl; intros Hnotin.
  - reflexivity.
  - destruct Hph as (Hid & _). unfold of_product at 1. rewrite Hid.
    destruct (Product.id p =? product_id) eqn:E.
    + apply Z.eqb_eq in E. exfalso. apply Hnotin. left. exact E.
    + apply IH. intros Hin. apply Hnotin. right. exact Hin.
Qed.


(** ** [bulk_increase] as a whole *)

Lemma bulk_increase_empty payload w :
  selected_products payload w = [] ->
  bulk_increase payload w = (Ok [("updated", JInt 0)], w).
Proof.
  unfold selected_products, bulk_increase, bind, session_exec_all.
  intros ->. reflexivity.
Qed.

Lemma bulk_increase_nonempty payload w :
  selected_products payload w <> [] ->
  exists new,
    bulk_increase payload w =
      (Ok [("updated", JInt (Z.of_nat (List.length (selected_products payload w))));
           ("percentage", JFloat (BulkIncreaseRequest.percentage payload));
           ("category",
            json_of_optional_str (BulkIncreaseRequest.category payload))],
       mkWorld (clock w)
         (reads w + 2 * List.length (selected_products payload w))
         (map (after_bulk_loop (bulk_factor payload) (clock w) (reads w)
                 (selected_products payload w))
              (products w))
         (price_history w ++ new)) /\
    Forall2 (bulk_entry_of payload (bulk_factor payload))
      (selected_products payload w) new.
Proof.
  unfold selected_products, bulk_increase, bind, session_exec_all.
  destruct (filter (bulk_query payload) (products w)) as [| p rest] eqn:Hsel.
  - intros H. contradiction H. reflexivity.
  - intros _.
    destruct (bulk_loop_spec payload (bulk_factor payload) (p :: rest) w 0)
      as (new & Heq & Hall).
    exists new. split; [| exact Hall].
    rewrite Heq. reflexivity.
Qed.

Lemma selected_products_In payload w p :
  In p (selected_products payload w) -> In p (products w).
Proof.
  unfold selected_products. intros H. apply filter_In in H. apply H.
Qed.




(** The example of the specification: ten per cent on prices 100 and 200
    gives 110 and 220, two history rows, and [updated] is 2. *)
Example bulk_increase_ten_per_cent :
  let r := bulk_increase (BulkIncreaseRequest.parse 10 None None)
             sample_world in
  map Product.price (products (snd r)) = [110; 220]%float /\
  List.length (price_history (snd r)) = 2%nat /\
  fst r = Ok [("updated", JInt 2); ("percentage", JFloat 10);
              ("category", JNull)].
Proof.
  vm_compute. repeat split.
Qed.



Example bulk_increase_zero_per_cent :
  map (fun h => (PriceHistory.old_price h, PriceHistory.new_price h))
      (price_history
         (snd (bulk_increase (BulkIncreaseRequest.parse 0 None None)
                 sample_world))) =
  [(100, 100); (200, 200)]%float.
Proof.
  vm_compute. reflexivity.
Qed.





(** A product of another category is adjusted too when the category of the
    request is the empty string. *)
Example bulk_increase_empty_category_sample :
  map Product.price
      (products
         (snd (bulk_increase
                 (BulkIncreaseRequest.parse 10 (Some "") None)
                 sample_world))) = [110; 220]%float.
Proof.
  vm_compute. reflexivity.
Qed.

(** ** Timestamps along the requests *)

Lemma evolves_refl w : evolves w w.
Proof.
  repeat split; auto.
Qed.

Lemma create_product_evolves data w : evolves w (snd (create_product data w)).
Proof.
  unfold evolves. simpl. split; [reflexivity |]. split; [lia |]. split.
  - intros Hnd. rewrite map_app. simpl.
    apply NoDup_app; [exact Hnd | repeat constructor; intros [] |].
    intros x Hx [<- | []]. revert Hx. apply next_rowid_fresh.
  - intros p' Hin. apply in_app_or in Hin. destruct Hin as [Hin | [<- | []]].
    + left. exact Hin.
    + right. right. simpl. split; [apply next_rowid_fresh |].
      exists (reads w), (S (reads w)). repeat split; lia.
Qed.

Lemma update_product_evolves product_id data w :
  evolves w (snd (update_product product_id data w)).
Proof.
  destruct (product_row product_id w) as [p |] eqn:Hrow.
  - rewrite (update_product_found _ data _ _ Hrow). unfold evolves. simpl.
    assert (Hkeep : forall q,
      Product.id (if has_id (Product.id p) q
                  then updated_row data w p else q) = Product.id q).
    { intros q. destruct (has_id (Product.id p) q) eqn:E; [| reflexivity].
      apply has_id_true in E. simpl. congruence. }
    split; [reflexivity |]. split.
    { destruct (price_changed data (Product.price p)); lia. }
    split.
    + intros Hnd. rewrite map_map.
      rewrite (map_ext _ Product.id Hkeep). exact Hnd.
    + intros p' Hin. apply in_map_iff in Hin.
      destruct Hin as (q & <- & Hq).
      destruct (has_id (Product.id p) q) eqn:E; [| left; exact Hq].
      right. left. exists p, (reads w). simpl.
      split; [apply (product_row_In _ _ _ Hrow) |].
      repeat split; try reflexivity; try lia.
      destruct (price_changed data (Product.price p)); lia.
  - rewrite (update_product_missing _ data _ Hrow). apply evolves_refl.
Qed.

Lemma delete_product_evolves product_id w :
  evolves w (snd (delete_product product_id w)).
Proof.
  unfold delete_product, bind, session_get, not_found, raise.
  destruct (product_row product_id w) as [p |]; simpl;
    [| apply evolves_refl].
  unfold evolves. simpl. split; [reflexivity |]. split; [lia |]. split.
  - apply NoDup_map_filter.
  - intros p' Hin. left. apply filter_In in Hin. apply Hin.
Qed.

Lemma bulk_increase_evolves payload w :
  evolves w (snd (bulk_increase payload w)).
Proof.
  destruct (selected_products payload w) as [| p0 rest] eqn:Hsel.
  - rewrite (bulk_increase_empty _ _ Hsel). apply evolves_refl.
  - assert (Hne : selected_products payload w <> []) by congruence.
    destruct (bulk_increase_nonempty payload w Hne) as (new & Heq & _).
    rewrite Heq. unfold evolves. simpl.
    split; [reflexivity |]. split; [lia |]. split.
    + intros Hnd. rewrite map_map.
      rewrite (map_ext _ Product.id
                 (after_bulk_loop_id _ _ _ (reads w))).
      exact Hnd.
    + intros p' Hin. apply in_map_iff in Hin.
      destruct Hin as (q & <- & Hq).
      destruct (after_bulk_loop_cases (bulk_factor payload) (clock w)
                  (selected_products payload w) (reads w) q)
        as [Hsame | (p & k & Hp & Hid & Hk & Hrow)].
      * left. rewrite Hsame. exact Hq.
      * right. left. exists p, k. rewrite Hrow. simpl.
        split; [apply (selected_products_In _ _ _ Hp) |].
        repeat split; try reflexivity; lia.
Qed.

Lemma step_evolves w w' : step w w' -> evolves w w'.
Proof.
  intros Hstep. destruct Hstep.
  - apply create_product_evolves.
  - apply evolves_refl.
  - unfold get_product, bind, session_get, not_found, raise.
    destruct (product_row product_id w); apply evolves_refl.
  - apply update_product_evolves.
  - apply delete_product_evolves.
  - apply bulk_increase_evolves.
  - unfold get_history, bind, session_get, not_found, raise.
    destruct (product_row product_id w); apply evolves_refl.
Qed.

(** Under distinct primary keys two rows of one key are one row. *)
Lemma same_id_same_row l p q :
  NoDup (map Product.id l) -> In p l -> In q l ->
  Product.id p = Product.id q -> p = q.
Proof.
  intros Hnd Hp Hq Hid.
  pose proof (find_unique (Product.id p) l p Hnd Hp eq_refl) as Hfp.
  pose proof (find_unique (Product.id p) l q Hnd Hq (eq_sym Hid)) as Hfq.
  congruence.
Qed.

Lemma evolves_timestamps_ok w w' :
  monotone (clock w) -> evolves w w' ->
  timestamps_ok w -> timestamps_ok w'.
Proof.
  intros Hmono (Hclock & Hreads & Hkeys & Hrows) (Hnd & Hok).
  split; [apply Hkeys, Hnd |].
  intros p' Hin. rewrite Hclock.
  destruct (Hrows p' Hin)
    as [Hold | [(p & k & Hp & _ & Hcreated & Hk & Hupdated)
               | (_ & j & k & Hjk & Hk & Hcreated & Hupdated)]].
  - destruct (Hok p' Hold) as (Horder & Hnext).
    split; [exact Horder |]. intros k Hk. apply Hnext. lia.
  - destruct (Hok p Hp) as (Horder & Hnext).
    rewrite Hcreated, Hupdated. split.
    + specialize (Hnext k). lia.
    + intros k' Hk'. apply Hmono. lia.
  - rewrite Hcreated, Hupdated. split.
    + apply Hmono. lia.
    + intros k' Hk'. apply Hmono. lia.
Qed.

Lemma evolves_updated_at w w' p p' :
  evolves w w' -> timestamps_ok w ->
  In p (products w) -> In p' (products w') ->
  Product.id p' = Product.id p ->
  Product.updated_at p <= Product.updated_at p'.
Proof.
  intros (_ & _ & _ & Hrows) (Hnd & Hok) Hp Hp' Hid.
  destruct (Hrows p' Hp')
    as [Hold | [(q & k & Hq & Hidq & _ & Hk & Hupdated)
               | (Hnew & _)]].
  - rewrite (same_id_same_row _ _ _ Hnd Hold Hp Hid). lia.
  - assert (q = p) as ->.
    { apply (same_id_same_row _ _ _ Hnd Hq Hp). congruence. }
    rewrite Hupdated. apply (Hok p Hp). lia.
  - exfalso. apply Hnew. rewrite Hid. apply in_map, Hp.
Qed.

Lemma reachable_clock clk w : reachable clk w -> clock w = clk.
Proof.
  induction 1 as [| w w' _ IH Hstep].
  - reflexivity.
  - apply step_evolves in Hstep. destruct Hstep as (Hclock & _). congruence.
Qed.

Lemma reachable_timestamps_ok clk w :
  monotone clk -> reachable clk w -> timestamps_ok w.
Proof.
  intros Hmono. induction 1 as [| w w' Hreach IH Hstep].
  - split; [constructor | intros p []].
  - apply (evolves_timestamps_ok w w'); auto.
    + rewrite (reachable_clock _ _ Hreach). exact Hmono.
    + apply step_evolves, Hstep.
Qed.

(** C6, as the code has it: [created_at] and [updated_at] of a new product
    are two successive readings of the clock, so that, when the clock never
    runs backwards, [created_at <= updated_at] at the creation; each request
    then leaves the [updated_at] of a product where it was or moves it
    forward; and [created_at <= updated_at] holds for every product of every
    world the requests can reach. *)
Theorem updated_at_not_before_created_at clk w :
  monotone clk -> reachable clk w ->
  (forall data,
     exists p,
       products (snd (create_product data w)) = products w ++ [p] /\
       Product.created_at p = clk (reads w) /\
       Product.updated_at p = clk (S (reads w)) /\
       Product.created_at p <= Product.updated_at p) /\
  (forall w' p p',
     step w w' ->
     In p (products w) -> In p' (products w') ->
     Product.id p' = Product.id p ->
     Product.updated_at p <= Product.updated_at p') /\
  (forall p,
     In p (products w) -> Product.created_at p <= Product.updated_at p).
Proof.
  intros Hmono Hreach.
  pose proof (reachable_clock _ _ Hreach) as Hclock.
  pose proof (reachable_timestamps_ok _ _ Hmono Hreach) as Hok.
  split; [| split].
  - intros data. eexists. split; [reflexivity |]. simpl.
    rewrite Hclock. repeat split. apply Hmono. lia.
  - intros w' p p' Hstep. apply evolves_updated_at; [| exact Hok].
    apply step_evolves, Hstep.
  - intros p Hp. apply Hok, Hp.
Qed.

(** With the ticking clock, a product created on the empty store and then
    renamed is not updated before it was created. *)
Lemma updated_at_not_before_created_at_witness :
  monotone ticking /\
  reachable ticking
    (snd (update_product 1
            (ProductUpdate.mk (Some "mate imperial") None None None)
            (snd (create_product (ProductCreate.mk "mate" "bazar" 50 100)
                    (initial ticking))))) /\
  forall p,
    In p (products
            (snd (update_product 1
                    (ProductUpdate.mk (Some "mate imperial") None None None)
                    (snd (create_product
                            (ProductCreate.mk "mate" "bazar" 50 100)
                            (initial ticking)))))) ->
    Product.created_at p <= Product.updated_at p.
Proof.
  assert (Hmono : monotone ticking).
  { intros i j Hij. unfold ticking. lia. }
  assert (Hreach :
    reachable ticking
      (snd (update_product 1
              (ProductUpdate.mk (Some "mate imperial") None None None)
              (snd (create_product (ProductCreate.mk "mate" "bazar" 50 100)
                      (initial ticking)))))).
  { eapply reachable_step; [eapply reachable_step |].
    - apply reachable_initial.
    - apply step_create.
    - apply step_update. }
  split; [exact Hmono |]. split; [exact Hreach |].
  apply (updated_at_not_before_created_at ticking _ Hmono Hreach).
Defined.

(** C6 as stated fails at the creation: with the ticking clock the product
    created on the empty store has [created_at] 0 and [updated_at] 1. *)
Lemma create_product_reads_the_clock_twice :
  ~ (forall p,
       In p (products
               (snd (create_product (ProductCreate.mk "mate" "bazar" 50 100)
                       (initial ticking)))) ->
       Product.created_at p = Product.updated_at p).
Proof.
  intros H. specialize (H _ (or_introl eq_refl)).
  vm_compute in H. discriminate.
Qed.


(** * Further properties of the handlers *)

(** ** Creating and reading products *)




(** X2: in every world the requests can reach from the empty store, no two
    products have the same identifier. *)
Theorem reachable_keys_distinct clk w :
  reachable clk w -> NoDup (map Product.id (products w)).
Proof.
  induction 1 as [| w w' _ IH Hstep].
  - constructor.
  - apply step_evolves in Hstep. destruct Hstep as (_ & _ & Hkeys & _).
    apply Hkeys, IH.
Qed.

(** Two products created one after the other have distinct identifiers. *)
Lemma reachable_keys_distinct_witness :
  reachable ticking
    (snd (create_product (ProductCreate.mk "yerba" "almacen" 100 200)
            (snd (create_product (ProductCreate.mk "mate" "bazar" 50 100)
                    (initial ticking))))) /\
  NoDup
    (map Product.id
       (products
          (snd (create_product (ProductCreate.mk "yerba" "almacen" 100 200)
                  (snd (create_product (ProductCreate.mk "mate" "bazar" 50 100)
                          (initial ticking))))))).
Proof.
  assert (Hreach :
    reachable ticking
      (snd (create_product (ProductCreate.mk "yerba" "almacen" 100 200)
              (snd (create_product (ProductCreate.mk "mate" "bazar" 50 100)
                      (initial ticking)))))).
  { eapply reachable_step; [eapply reachable_step |].
    - apply reachable_initial.
    - apply step_create.
    - apply step_create. }
  split; [exact Hreach |].
  apply (reachable_keys_distinct ticking _ Hreach).
Defined.

(** X3: under distinct identifiers [list_products] and [get_product] agree:
    the list has one view for each product of the store, in the order of the
    table, and each view of the list is the answer of [get_product] on its
    identifier.  Neither of them changes the world. *)
Theorem list_products_agrees_with_get w :
  NoDup (map Product.id (products w)) ->
  exists views,
    list_products w = (Ok views, w) /\
    map ProductRead.id views = map Product.id (products w) /\
    forall v,
      In v views -> get_product (ProductRead.id v) w = (Ok v, w).
Proof.
  intros Hnd. exists (map product_to_read (products w)).
  split; [reflexivity |]. split.
  - rewrite map_map. reflexivity.
  - intros v Hv. apply in_map_iff in Hv. destruct Hv as (p & <- & Hp).
    unfold get_product, bind, session_get, product_row. simpl.
    rewrite (find_unique (Product.id p) (products w) p Hnd Hp eq_refl).
    reflexivity.
Qed.

Lemma list_products_agrees_with_get_witness :
  NoDup (map Product.id (products sample_world)) /\
  exists views,
    list_products sample_world = (Ok views, sample_world) /\
    map ProductRead.id views = [1; 2].
Proof.
  assert (Hnd : NoDup (map Product.id (products sample_world))).
  { simpl. repeat constructor; simpl; intuition discriminate. }
  split; [exact Hnd |].
  destruct (list_products_agrees_with_get sample_world Hnd)
    as (views & Hlist & Hids & _).
  exists views. split; [exact Hlist | exact Hids].
Defined.


(** ** The history as a log *)

Lemma Forall2_In_r {A B} (R : A -> B -> Prop) l l' y :
  Forall2 R l l' -> In y l' -> exists x, In x l /\ R x y.
Proof.
  induction 1 as [| x y' l l' Hxy _ IH]; simpl; intros Hin.
  - contradiction.
  - destruct Hin as [-> | Hin].
    + exists x. split; [left; reflexivity | exact Hxy].
    + destruct (IH Hin) as (x' & Hx' & HR). exists x'. split; auto.
Qed.

(** X5: the history is a log.  A request leaves the rows of the history
    where and as they were and adds its rows after them; each row it adds
    carries the identifier and, as old price, the stored price of a product
    that was in the store before the request. *)
Theorem history_append_only w w' :
  step w w' ->
  exists new,
    price_history w' = price_history w ++ new /\
    forall h,
      In h new ->
      exists p,
        In p (products w) /\
        PriceHistory.product_id h = Product.id p /\
        PriceHistory.old_price h = Product.price p.
Proof.
  assert (Hnothing : forall w0 : World,
    exists new,
      price_history w0 = price_history w0 ++ new /\
      forall h, In h new ->
        exists p, In p (products w0) /\
                  PriceHistory.product_id h = Product.id p /\
                  PriceHistory.old_price h = Product.price p).
  { intros w0. exists []. rewrite app_nil_r. split; [reflexivity |].
    intros h []. }
  intros Hstep. destruct Hstep.
  - exists []. simpl. rewrite app_nil_r. split; [reflexivity | intros h []].
  - apply Hnothing.
  - unfold get_product, bind, session_get, not_found, raise.
    destruct (product_row product_id w); apply Hnothing.
  - destruct (product_row product_id w) as [p |] eqn:Hrow.
    + rewrite (update_product_found _ data _ _ Hrow). simpl.
      eexists. split; [reflexivity |].
      intros h Hh. exists p. split; [apply (product_row_In _ _ _ Hrow) |].
      destruct (price_changed data (Product.price p)); [| contradiction].
      destruct Hh as [<- | []]. split; reflexivity.
    + rewrite (update_product_missing _ data _ Hrow). apply Hnothing.
  - unfold delete_product, bind, session_get, not_found, raise.
    destruct (product_row product_id w); [| apply Hnothing].
    exists []. simpl. rewrite app_nil_r. split; [reflexivity | intros h []].
  - destruct (selected_products payload w) as [| p0 rest] eqn:Hsel.
    + rewrite (bulk_increase_empty _ _ Hsel). apply Hnothing.
    + assert (Hne : selected_products payload w <> []) by congruence.
      destruct (bulk_increase_nonempty payload w Hne) as (new & Heq & Hall).
      rewrite Heq. simpl. exists new. split; [reflexivity |].
      intros h Hh. destruct (Forall2_In_r _ _ _ _ Hall Hh) as (p & Hp & Hph).
      exists p. split; [apply (selected_products_In _ _ _ Hp) |].
      destruct Hph as (Hid & Hold & _). split; assumption.
  - unfold get_history, bind, session_get, not_found, raise.
    destruct (product_row product_id w); apply Hnothing.
Qed.

(** A price change on the sample world adds its row after the others. *)
Lemma history_append_only_witness :
  step sample_world
    (snd (update_product 1 (ProductUpdate.mk None None None (Some 120%float))
            sample_world)) /\
  exists new,
    price_history
      (snd (update_product 1
              (ProductUpdate.mk None None None (Some 120%float))
              sample_world)) = price_history sample_world ++ new.
Proof.
  assert (Hstep :
    step sample_world
      (snd (update_product 1
              (ProductUpdate.mk None None None (Some 120%float))
              sample_world))) by apply step_update.
  split; [exact Hstep |].
  destruct (history_append_only _ _ Hstep) as (new & Hnew & _).
  exists new. exact Hnew.
Defined.





(** ** What a bulk increase leaves alone *)

(** X8: a bulk increase on a category touches that category only.  Under
    distinct identifiers and with a category that is not the empty string, a
    product of another category keeps its row, price and [updated_at]
    included, and gets no history row. *)
Theorem bulk_increase_other_categories payload category w q :
  NoDup (map Product.id (products w)) ->
  BulkIncreaseRequest.category payload = Some category ->
  category <> "" ->
  In q (products w) ->
  Product.category q <> category ->
  product_row (Product.id q) (snd (bulk_increase payload w)) = Some q /\
  filter (of_product (Product.id q))
         (price_history (snd (bulk_increase payload w))) =
  filter (of_product (Product.id q)) (price_history w).
Proof.
  intros Hnd Hcategory Hnonempty Hq Hother.
  assert (Hrow : product_row (Product.id q) w = Some q).
  { apply find_unique; auto. }
  assert (Hsel : forall p,
    In p (selected_products payload w) -> Product.id p <> Product.id q).
  { intros p Hp Hid.
    pose proof (selected_products_In _ _ _ Hp) as Hp'.
    assert (p = q) as -> by (apply (same_id_same_row _ _ _ Hnd Hp' Hq Hid)).
    unfold selected_products, bulk_query in Hp. rewrite Hcategory in Hp.
    apply String.eqb_neq in Hnonempty. rewrite Hnonempty in Hp.
    apply filter_In in Hp. destruct Hp as (_ & Hp).
    unfold where_category, select_Product in Hp. simpl in Hp.
    apply String.eqb_eq in Hp. contradiction. }
  destruct (selected_products payload w) as [| p0 rest] eqn:Hlist.
  - rewrite (bulk_increase_empty _ _ Hlist). split; [exact Hrow | reflexivity].
  - assert (Hne : selected_products payload w <> []) by congruence.
    destruct (bulk_increase_nonempty payload w Hne) as (new & Heq & Hall).
    rewrite Heq. simpl. rewrite Hlist in Hall. split.
    + unfold product_row. simpl.
      rewrite find_map_same_id by (intros r; apply after_bulk_loop_id).
      unfold product_row in Hrow. rewrite Hrow. simpl.
      rewrite Hlist. rewrite after_bulk_loop_other; [reflexivity | exact Hsel].
    + rewrite filter_app.
      rewrite (bulk_entries_none _ _ _ _ (Product.id q) Hall).
      * apply app_nil_r.
      * intros Hin. apply in_map_iff in Hin.
        destruct Hin as (p & Hid & Hp). apply (Hsel p Hp Hid).
Qed.

(** Ten per cent on the category of [yerba] leaves [mate] as it was. *)
Lemma bulk_increase_other_categories_witness :
  NoDup (map Product.id (products sample_world)) /\
  "almacen" <> "" /\
  In mate (products sample_world) /\
  Product.category mate <> "almacen" /\
  product_row 1
    (snd (bulk_increase
            (BulkIncreaseRequest.parse 10 (Some "almacen") None)
            sample_world)) = Some mate.
Proof.
  assert (Hnd : NoDup (map Product.id (products sample_world))).
  { simpl. repeat constructor; simpl; intuition discriminate. }
  assert (Hnonempty : "almacen" <> "") by discriminate.
  assert (Hin : In mate (products sample_world)) by (left; reflexivity).
  assert (Hother : Product.category mate <> "almacen") by discriminate.
  repeat (split; [assumption |]).
  apply (bulk_increase_other_categories
           (BulkIncreaseRequest.parse 10 (Some "almacen") None)
           "almacen" sample_world mate Hnd eq_refl Hnonempty Hin Hother).
Defined.

(** ** Deleting twice *)


(** ** The margin in the answers *)

(** X10: the margin of an answer is never a stored one: in the answers of
    [create_product], [get_product], [update_product] and [list_products]
    the margin of a view is [compute_margin] of the cost and the price the
    same view shows; after an update these are the patched ones. *)
Theorem views_show_their_margin w :
  let shown v :=
    ProductRead.margin v =
    compute_margin (ProductRead.cost v) (ProductRead.price v) in
  (forall data v, fst (create_product data w) = Ok v -> shown v) /\
  (forall product_id v, fst (get_product product_id w) = Ok v -> shown v) /\
  (forall product_id data v,
     fst (update_product product_id data w) = Ok v -> shown v) /\
  (forall views, fst (list_products w) = Ok views -> Forall shown views).
Proof.
  cbv zeta. split; [| split; [| split]].
  - intros data v Hv. injection Hv as <-. reflexivity.
  - intros product_id v.
    unfold get_product, bind, session_get, not_found, raise.
    destruct (product_row product_id w); simpl; [| discriminate].
    intros Hv. injection Hv as <-. reflexivity.
  - intros product_id data v.
    destruct (product_row product_id w) as [p |] eqn:Hrow.
    + rewrite (update_product_found _ data _ _ Hrow). simpl.
      intros Hv. injection Hv as <-. reflexivity.
    + rewrite (update_product_missing _ data _ Hrow). discriminate.
  - intros views Hviews. injection Hviews as <-.
    apply Forall_forall. intros v Hv. apply in_map_iff in Hv.
    destruct Hv as (p & <- & _). reflexivity.
Qed.

(** X11: a product sold at its cost has no margin: for a cost that is a
    number other than zero, [compute_margin(cost, cost)] takes the branch
    of the division and compares equal to 0. *)
Theorem compute_margin_break_even cost :
  (exists s m e, Prim2SF cost = S754_finite s m e) ->
  float_eq cost 0 = false /\
  float_eq (compute_margin cost cost) 0 = true.
Proof.
  intros (s & m & e & Hcost).
  assert (Hnz : float_eq cost 0 = false).
  { unfold float_eq. rewrite eqb_spec, Hcost. destruct s; reflexivity. }
  split; [exact Hnz |].
  unfold compute_margin. rewrite Hnz.
  assert (Hsub : Prim2SF (cost - cost)%float = S754_zero false).
  { rewrite sub_spec, Hcost. unfold SF64sub, SFsub.
    rewrite Z.sub_diag. reflexivity. }
  assert (Hdiv : Prim2SF ((cost - cost) / cost)%float = S754_zero s).
  { rewrite div_spec, Hsub, Hcost. reflexivity. }
  assert (Hmul :
    Prim2SF (((cost - cost) / cost) * 100)%float = S754_zero s).
  { rewrite mul_spec, Hdiv. destruct s; reflexivity. }
  unfold round. rewrite Hmul.
  unfold float_eq. rewrite eqb_spec, Hmul. reflexivity.
Qed.

Lemma compute_margin_break_even_witness :
  (exists s m e, Prim2SF 100 = S754_finite s m e) /\
  float_eq (compute_margin 100 100) 0 = true.
Proof.
  assert (Hfinite : exists s m e, Prim2SF 100 = S754_finite s m e).
  { eexists _, _, _. vm_compute. reflexivity. }
  split; [exact Hfinite |].
  apply (compute_margin_break_even 100 Hfinite).
Defined.

(** ** The order of the history *)

Lemma StronglySorted_app_one {A} (R : A -> A -> Prop) l x :
  StronglySorted R l -> Forall (fun y => R y x) l ->
  StronglySorted R (l ++ [x]).
Proof.
  induction 1 as [| y l Hl IH Hy]; simpl; intros Hall.
  - repeat constructor.
  - inversion Hall as [| ? ? Hyx Hlx]; subst.
    constructor; [apply IH, Hlx |].
    apply Forall_app. split; [exact Hy | repeat constructor; exact Hyx].
Qed.

Lemma StronglySorted_filter {A} (R : A -> A -> Prop) (test : A -> bool) l :
  StronglySorted R l -> StronglySorted R (filter test l).
Proof.
  induction 1 as [| y l Hl IH Hy]; simpl.
  - constructor.
  - destruct (test y); [| exact IH].
    constructor; [exact IH |].
    apply Forall_forall. intros z Hz. apply filter_In in Hz.
    rewrite Forall_forall in Hy. apply Hy, Hz.
Qed.

Lemma insert_desc_oldest h l :
  Forall (fun x => PriceHistory.created_at h <= PriceHistory.created_at x) l ->
  insert_desc h l = l ++ [h].
Proof.
  induction 1 as [| x l Hx _ IH]; simpl.
  - reflexivity.
  - destruct (PriceHistory.created_at x <? PriceHistory.created_at h) eqn:E.
    + apply Z.ltb_lt in E. lia.
    + rewrite IH. reflexivity.
Qed.

(** Rows in the order of their times come out in the reverse order. *)
Lemma order_by_created_at_desc_rev l :
  StronglySorted written_before l -> order_by_created_at_desc l = rev l.
Proof.
  induction 1 as [| h l Hl IH Hh]; simpl.
  - reflexivity.
  - rewrite IH. apply insert_desc_oldest.
    apply Forall_forall. intros x Hx. apply in_rev in Hx.
    rewrite Forall_forall in Hh. specialize (Hh x Hx).
    unfold written_before in Hh. lia.
Qed.

(** Writing a history row keeps the history in order. *)
Lemma session_add_history_in_order product_id old_price new_price reason w :
  strictly_increasing (clock w) -> history_in_order w ->
  history_in_order
    (snd (session_add_history product_id old_price new_price reason w)).
Proof.
  intros Hclk (Hsorted & Hbound). split; simpl.
  - apply StronglySorted_app_one; [exact Hsorted |].
    apply Forall_forall. intros h Hh. unfold written_before. simpl.
    apply Hbound; [exact Hh | lia].
  - intros h k Hh Hk. apply in_app_or in Hh. destruct Hh as [Hh | [<- | []]].
    + apply Hbound; [exact Hh | lia].
    + simpl. apply Hclk. lia.
Qed.

(** Reading the clock or writing a product keeps the history in order. *)
Lemma history_in_order_later w w' :
  clock w' = clock w -> (reads w <= reads w')%nat ->
  price_history w' = price_history w ->
  history_in_order w -> history_in_order w'.
Proof.
  intros Hclock Hreads Hhistory (Hsorted & Hbound).
  split; rewrite Hhistory; [exact Hsorted |].
  intros h k Hh Hk. rewrite Hclock. apply Hbound; [exact Hh | lia].
Qed.

Lemma bulk_loop_in_order payload factor selected :
  forall w n,
  strictly_increasing (clock w) -> history_in_order w ->
  history_in_order (snd (bulk_loop payload factor selected n w)).
Proof.
  induction selected as [| p rest IH]; intros w n Hclk Hok.
  - exact Hok.
  - simpl bulk_loop. unfold bind at 1. simpl.
    unfold bind at 1. simpl. unfold bind at 1.
    match goal with
    | |- context [session_add_history ?i ?o ?v ?r ?w1] =>
        pose proof (session_add_history_in_order i o v r w1) as Hadd;
        destruct (session_add_history i o v r w1) as [[[] | c d] w2] eqn:E
    end.
    + apply IH.
      * apply (f_equal snd) in E. simpl in E. rewrite <- E. exact Hclk.
      * apply Hadd; [exact Hclk |].
        apply (history_in_order_later w); simpl; auto.
    + apply (f_equal fst) in E. discriminate E.
Qed.

Lemma step_history_in_order w w' :
  strictly_increasing (clock w) -> step w w' ->
  history_in_order w -> history_in_order w'.
Proof.
  intros Hclk Hstep Hok. destruct Hstep.
  - apply (history_in_order_later w); simpl; auto.
  - exact Hok.
  - unfold get_product, bind, session_get, not_found, raise.
    destruct (product_row product_id w); exact Hok.
  - unfold update_product, bind at 1, session_get.
    destruct (product_row product_id w) as [p |]; [| exact Hok].
    unfold bind at 1. simpl. unfold bind at 1. simpl.
    set (w1 := mkWorld (clock w) (S (reads w))
                 (map (fun q => if has_id (Product.id p) q
                                then Product.set_updated_at
                                       (clock w (reads w)) (setattrs data p)
                                else q) (products w))
                 (price_history w)).
    assert (Hok1 : history_in_order w1).
    { apply (history_in_order_later w); simpl; auto. }
    destruct (price_changed data (Product.price p)).
    + unfold bind at 1.
      pose proof (session_add_history_in_order (Product.id p)
                    (Product.price p)
                    (supplied (ProductUpdate.price data) (Product.price p))
                    (Some individual_update) w1 Hclk Hok1) as Hadd.
      destruct (session_add_history (Product.id p) (Product.price p)
                  (supplied (ProductUpdate.price data) (Product.price p))
                  (Some individual_update) w1) as [[[] | c d] w2] eqn:E.
      * exact Hadd.
      * exact Hadd.
    + exact Hok1.
  - unfold delete_product, bind, session_get, not_found, raise.
    destruct (product_row product_id w); [| exact Hok].
    apply (history_in_order_later w); simpl; auto.
  - unfold bulk_increase, bind at 1, session_exec_all.
    destruct (filter (bulk_query payload) (products w)) as [| p rest];
      [exact Hok |].
    unfold bind.
    pose proof (bulk_loop_in_order payload (bulk_factor payload) (p :: rest)
                  w 0 Hclk Hok) as Hloop.
    destruct (bulk_loop payload (bulk_factor payload) (p :: rest) 0 w)
      as [[n | c d] w']; exact Hloop.
  - unfold get_history, bind, session_get, not_found, raise.
    destruct (product_row product_id w); exact Hok.
Qed.

Lemma reachable_history_in_order clk w :
  strictly_increasing clk -> reachable clk w -> history_in_order w.
Proof.
  intros Hclk. induction 1 as [| w w' Hreach IH Hstep].
  - split; [constructor | intros h k []].
  - apply (step_history_in_order w w'); auto.
    rewrite (reachable_clock _ _ Hreach). exact Hclk.
Qed.

(** X12: when the clock advances at every reading, in every world the
    requests can reach [get_history] answers the history rows of the
    product in the reverse of the order they were written in: the last
    price change comes first. *)
Theorem get_history_is_reverse_log clk w product_id :
  strictly_increasing clk -> reachable clk w ->
  product_row product_id w <> None ->
  fst (get_history product_id w) =
    Ok (rev (filter (of_product product_id) (price_history w))).
Proof.
  intros Hclk Hreach Hsome.
  destruct (reachable_history_in_order _ _ Hclk Hreach) as (Hsorted & _).
  unfold get_history, bind, session_get, not_found, raise.
  destruct (product_row product_id w); [| contradiction Hsome; reflexivity].
  simpl. f_equal. apply order_by_created_at_desc_rev.
  apply StronglySorted_filter, Hsorted.
Qed.

(** After two price changes of a new product the later change comes first. *)
Lemma get_history_is_reverse_log_witness :
  let w :=
    snd (update_product 1 (ProductUpdate.mk None None None (Some 130%float))
      (snd (update_product 1
              (ProductUpdate.mk None None None (Some 120%float))
              (snd (create_product (ProductCreate.mk "mate" "bazar" 50 100)
                      (initial ticking))))))
  in
  strictly_increasing ticking /\
  reachable ticking w /\
  product_row 1 w <> None /\
  exists rows,
    fst (get_history 1 w) = Ok rows /\
    map PriceHistory.new_price rows = [130; 120]%float.
Proof.
  cbv zeta.
  assert (Hclk : strictly_increasing ticking).
  { intros i j Hij. unfold ticking. lia. }
  assert (Hreach :
    reachable ticking
      (snd (update_product 1
              (ProductUpdate.mk None None None (Some 130%float))
              (snd (update_product 1
                      (ProductUpdate.mk None None None (Some 120%float))
                      (snd (create_product
                              (ProductCreate.mk "mate" "bazar" 50 100)
                              (initial ticking)))))))).
  { eapply reachable_step; [eapply reachable_step; [eapply reachable_step |] |].
    - apply reachable_initial.
    - apply step_create.
    - apply step_update.
    - apply step_update. }
  assert (Hsome :
    product_row 1
      (snd (update_product 1
              (ProductUpdate.mk None None None (Some 130%float))
              (snd (update_product 1
                      (ProductUpdate.mk None None None (Some 120%float))
                      (snd (create_product
                              (ProductCreate.mk "mate" "bazar" 50 100)
                              (initial ticking))))))) <> None).
  { vm_compute. discriminate. }
  split; [exact Hclk |]. split; [exact Hreach |]. split; [exact Hsome |].
  eexists. split.
  - apply (get_history_is_reverse_log ticking _ 1 Hclk Hreach Hsome).
  - vm_compute. reflexivity.
Defined.

(** ** Requests one after the other *)



(** X14: a bulk increase changes prices and [updated_at] and nothing else:
    under distinct identifiers the table keeps its products, in their
    order, each with its identifier, name, category, cost and
    [created_at]. *)
Theorem bulk_increase_keeps_identity payload w :
  NoDup (map Product.id (products w)) ->
  let identity p :=
    (Product.id p, Product.name p, Product.category p, Product.cost p,
     Product.created_at p) in
  map identity (products (snd (bulk_increase payload w))) =
  map identity (products w).
Proof.
  intros Hnd. cbv zeta.
  destruct (selected_products payload w) as [| p0 rest] eqn:Hsel.
  - rewrite (bulk_increase_empty _ _ Hsel). reflexivity.
  - assert (Hne : selected_products payload w <> []) by congruence.
    destruct (bulk_increase_nonempty payload w Hne) as (new & Heq & _).
    rewrite Heq. simpl. rewrite map_map. apply map_ext_in.
    intros q Hq.
    destruct (after_bulk_loop_cases (bulk_factor payload) (clock w)
                (selected_products payload w) (reads w) q)
      as [Hsame | (p & k & Hp & Hid & _ & Hrow)].
    + rewrite Hsame. reflexivity.
    + rewrite Hrow.
      assert (p = q) as ->.
      { apply (same_id_same_row _ _ _ Hnd); auto.
        apply (selected_products_In _ _ _ Hp). }
      reflexivity.
Qed.

Lemma bulk_increase_keeps_identity_witness :
  NoDup (map Product.id (products sample_world)) /\
  map Product.name
    (products (snd (bulk_increase (BulkIncreaseRequest.parse 10 None None)
                      sample_world))) = ["mate"; "yerba"].
Proof.
  assert (Hnd : NoDup (map Product.id (products sample_world))).
  { simpl. repeat constructor; simpl; intuition discriminate. }
  split; [exact Hnd |].
  pose proof (bulk_increase_keeps_identity
                (BulkIncreaseRequest.parse 10 None None) sample_world Hnd)
    as Hkeep.
  apply (f_equal (map (fun i => snd (fst (fst (fst i)))))) in Hkeep.
  rewrite !map_map in Hkeep. exact Hkeep.
Defined.

(** X15: the history of a deleted product is out of reach of
    [get_history]: after [delete_product] on a product that exists,
    [get_history] on its identifier raises the 404, while the rows of that
    identifier are still in the table. *)
Theorem delete_then_history product_id w :
  product_row product_id w <> None ->
  let w' := snd (delete_product product_id w) in
  get_history product_id w' =
    (HTTPException 404 "Producto no encontrado", w') /\
  filter (of_product product_id) (price_history w') =
  filter (of_product product_id) (price_history w).
Proof.
  intros Hsome. cbv zeta.
  destruct (product_row product_id w) as [p |] eqn:Hrow;
    [| contradiction Hsome; reflexivity].
  pose proof (product_row_id _ _ _ Hrow) as Hid.
  unfold delete_product, bind, session_get, not_found, raise.
  rewrite Hrow. simpl. rewrite Hid. split; [| reflexivity].
  unfold get_history, bind, session_get, product_row. simpl.
  rewrite find_filter_other. reflexivity.
Qed.

(** A product with one price change is deleted: its row of history stays
    in the table and [get_history] raises the 404. *)
Lemma delete_then_history_witness :
  let w :=
    snd (update_product 1 (ProductUpdate.mk None None None (Some 120%float))
           sample_world) in
  product_row 1 w <> None /\
  fst (get_history 1 (snd (delete_product 1 w))) =
    HTTPException 404 "Producto no encontrado" /\
  List.length
    (filter (of_product 1) (price_history (snd (delete_product 1 w)))) = 1%nat.
Proof.
  cbv zeta.
  assert (Hsome :
    product_row 1
      (snd (update_product 1
              (ProductUpdate.mk None None None (Some 120%float))
              sample_world)) <> None).
  { vm_compute. discriminate. }
  split; [exact Hsome |].
  destruct (delete_then_history 1 _ Hsome) as (Hget & Hrows).
  split.
  - rewrite Hget. reflexivity.
  - rewrite Hrows. vm_compute. reflexivity.
Defined.
